(** * Control-request gateware for USB3: a shallow embedding

    This development models
    [luna/gateware/usb/usb3/application/request.py]:

    - [SuperSpeedSetupDecoder]: the three-state machine that buffers a
      two-word setup packet and publishes it on [rx_good];
    - [SuperSpeedRequestHandlerMultiplexer]: the combinational fan-in of
      any number of request-handler interfaces onto one shared interface;
    - [StallOnlyRequestHandler]: the handler that only stalls.

    Synchronous logic ([m.d.ss]) is a step function from the registers and
    the inputs sampled in a clock cycle to the registers of the next cycle.
    Combinational logic ([m.d.comb]) is a function of the inputs of the
    cycle; a signal no statement drives holds its reset value, zero.
    Statements are applied in program order, so a later active assignment
    to a signal replaces an earlier one. *)

From stdpp Require Import base numbers list.

(** ** Bit-vector operators *)

Module Bits.
Local Open Scope Z_scope.

(** [Value.all()] on a [w]-bit value: every bit is set. *)
Definition all (w v : Z) : bool := Z.land v (Z.ones w) =? Z.ones w.

(** [Value.any()] on a [w]-bit value: some bit is set. *)
Definition any (w v : Z) : bool := negb (Z.land v (Z.ones w) =? 0).

(** Reading [value.word_select(k, w)]. *)
Definition word_select (k w v : Z) : Z :=
  Z.land (Z.shiftr v (k * w)) (Z.ones w).

(** The value of a [total]-bit signal after
    [signal.word_select(k, w).eq(x)]: bits [k*w .. k*w+w-1] are taken
    from the low [w] bits of [x], the other bits are kept. *)
Definition word_assign (total k w x v : Z) : Z :=
  Z.lor
    (Z.land v (Z.lxor (Z.ones total) (Z.shiftl (Z.ones w) (k * w))))
    (Z.shiftl (Z.land x (Z.ones w)) (k * w)).
End Bits.

(** ** Records exchanged by the gateware *)

(** Modelled from the spec: [SetupPacket] is declared in
    [luna/gateware/usb/request.py], which is not among the sources.  It is
    the 8-byte control request (word0 = bytes 0-3, word1 = bytes 4-7)
    followed by the [received] strobe.  [request_bytes] is the
    concatenation of the request fields, byte 0 in the low bits. *)
Record SetupPacket := mkSetupPacket {
  request_bytes : Z;
  received : bool
}.

Definition SETUP_BITS : Z := 64.

Module SetupFields.
Local Open Scope Z_scope.
Definition request_type (p : SetupPacket) : Z :=
  Z.land (request_bytes p) 255.
Definition request (p : SetupPacket) : Z :=
  Z.land (Z.shiftr (request_bytes p) 8) 255.
Definition value (p : SetupPacket) : Z :=
  Z.land (Z.shiftr (request_bytes p) 16) 65535.
Definition index (p : SetupPacket) : Z :=
  Z.land (Z.shiftr (request_bytes p) 32) 65535.
Definition length (p : SetupPacket) : Z :=
  Z.land (Z.shiftr (request_bytes p) 48) 65535.
End SetupFields.

(** Reset value of a [SetupPacket] signal. *)
Definition SetupPacket_reset : SetupPacket := mkSetupPacket 0 false.

(** [p.word_select(k, 32).eq(x)] on a setup packet: both words lie in the
    request bytes, the strobe is untouched. *)
Definition SetupPacket_word_assign (k x : Z) (p : SetupPacket) : SetupPacket :=
  mkSetupPacket (Bits.word_assign SETUP_BITS k 32 x (request_bytes p))
                (received p).

(** [p.received.eq(b)]. *)
Definition SetupPacket_set_received (b : bool) (p : SetupPacket) : SetupPacket :=
  mkSetupPacket (request_bytes p) b.

(** Modelled from the spec: [SuperSpeedStreamInterface] is declared in
    [luna/gateware/usb/stream.py], which is not among the sources.  A
    stream carries a 32-bit data word, one valid bit per byte lane, and the
    first/last markers. *)
Record SuperSpeedStreamInterface := mkStream {
  data : Z;
  valid : Z;
  first : bool;
  last : bool
}.

Definition VALID_BITS : Z := 4.

Definition Stream_reset : SuperSpeedStreamInterface := mkStream 0 0 false false.

(** ** SuperSpeedSetupDecoder *)

Module Decoder.

(** The one field of [DataHeaderPacket] the decoder reads. *)
Record DataHeaderPacket := mkHeader {
  setup : bool
}.

Inductive fsm_state := WAIT_FOR_FIRST | PARSE_SECOND | WAIT_FOR_VALID.

(** The registers of the decoder: the FSM state, the local [packet]
    of [elaborate] (line 97) and the output [self.packet]. *)
Record state := mkState {
  fsm : fsm_state;
  local_packet : SetupPacket;
  packet : SetupPacket
}.

(** The inputs sampled in one cycle. *)
Record inputs := mkInputs {
  sink : SuperSpeedStreamInterface;
  rx_good : bool;
  rx_bad : bool;
  header_in : DataHeaderPacket
}.

(** Register values after reset; the first state declared is the
    FSM's reset state. *)
Definition reset : state :=
  mkState WAIT_FOR_FIRST SetupPacket_reset SetupPacket_reset.

(** Assignments to the next value of one register. *)
Definition set_next (n : fsm_state) (s : state) : state :=
  mkState n (local_packet s) (packet s).
Definition set_local_packet (p : SetupPacket) (s : state) : state :=
  mkState (fsm s) p (packet s).
Definition set_packet (p : SetupPacket) (s : state) : state :=
  mkState (fsm s) (local_packet s) p.

(** One clock cycle of [elaborate].  [cur] holds the registers during
    the cycle; the result accumulates the [m.d.ss] assignments that are
    active, in program order.  Right-hand sides read [cur]. *)
Definition elaborate (cur : state) (i : inputs) : state :=
  (* m.d.ss += self.packet.received.eq(0) *)
  let nxt := set_packet (SetupPacket_set_received false (packet cur)) cur in
  match fsm cur with
  | WAIT_FOR_FIRST =>
      let packet_starting :=
        Bits.all VALID_BITS (valid (sink i)) && first (sink i) in
      let packet_is_setup := setup (header_in i) in
      if packet_starting && packet_is_setup then
        let nxt :=
          set_local_packet
            (SetupPacket_word_assign 0 (data (sink i)) (local_packet cur))
            nxt in
        set_next PARSE_SECOND nxt
      else nxt
  | PARSE_SECOND =>
      let nxt :=
        if Bits.all VALID_BITS (valid (sink i)) then
          if last (sink i) then
            let nxt :=
              set_local_packet
                (SetupPacket_word_assign 1 (data (sink i)) (local_packet cur))
                nxt in
            set_next WAIT_FOR_VALID nxt
          else set_next WAIT_FOR_FIRST nxt
        else nxt in
      if rx_bad i then set_next WAIT_FOR_FIRST nxt else nxt
  | WAIT_FOR_VALID =>
      let nxt :=
        if rx_good i then
          (* self.packet.eq(packet), then self.packet.received.eq(1) *)
          let nxt := set_packet (local_packet cur) nxt in
          let nxt :=
            set_packet (SetupPacket_set_received true (packet nxt)) nxt in
          set_next WAIT_FOR_FIRST nxt
        else nxt in
      if rx_bad i then set_next WAIT_FOR_FIRST nxt else nxt
  end.

(** Running the decoder over the inputs of consecutive cycles. *)
Definition run (s : state) (ins : list inputs) : state :=
  foldl elaborate s ins.

(** A cycle in [WAIT_FOR_VALID] with no verdict. *)
Definition no_verdict (i : inputs) : Prop :=
  rx_good i = false ∧ rx_bad i = false.

(** The cycles in which the decoder gives up the packet in flight: a
    second word that is valid but not last, an [rx_bad] while parsing
    the second word, an [rx_bad] verdict on its own. *)
Definition discards (s : state) (i : inputs) : Prop :=
  (fsm s = PARSE_SECOND ∧
     (rx_bad i = true ∨
      (Bits.all VALID_BITS (valid (sink i)) = true ∧ last (sink i) = false)))
  ∨ (fsm s = WAIT_FOR_VALID ∧ rx_bad i = true ∧ rx_good i = false).

End Decoder.

(** ** SuperSpeedRequestHandlerInterface *)

(** The fields of [HandshakeGeneratorInterface] that the handler drives.
    The record is declared in [usb3/protocol/transaction.py], which is not
    among the sources; [send_ack], [send_stall] and [stall] are the fields
    this file names, [other_fields] is the concatenation of the remaining
    handler-driven fields. *)
Record HandshakeGeneratorInterface := mkHandshakes {
  send_ack : bool;
  send_stall : bool;
  stall : bool;
  other_fields : Z
}.

Definition Handshakes_reset : HandshakeGeneratorInterface :=
  mkHandshakes false false false 0.

Definition set_stall (b : bool) (h : HandshakeGeneratorInterface) :
  HandshakeGeneratorInterface :=
  mkHandshakes (send_ack h) (send_stall h) b (other_fields h).

(** The signals of [SuperSpeedRequestHandlerInterface.__init__].  The
    first six are driven by the bus towards the handler, the others by the
    handler.  [handshakes_in] is the concatenation of the fields of a
    [HandshakeReceiverInterface]. *)
Record SuperSpeedRequestHandlerInterface := mkInterface {
  setup : SetupPacket;
  data_requested : bool;
  status_requested : bool;
  rx : SuperSpeedStreamInterface;
  handshakes_in : Z;
  active_config : Z;
  tx : SuperSpeedStreamInterface;
  tx_length : Z;
  tx_sequence_number : Z;
  handshakes_out : HandshakeGeneratorInterface;
  address_changed : bool;
  new_address : Z;
  config_changed : bool;
  new_config : Z
}.

Definition MAX_PACKET_LENGTH : Z := 1024.

Section InterfaceAssignments.
Variable t : SuperSpeedRequestHandlerInterface.

Definition set_tx (v : SuperSpeedStreamInterface) :=
  mkInterface (setup t) (data_requested t) (status_requested t) (rx t)
    (handshakes_in t) (active_config t)
    v (tx_length t) (tx_sequence_number t) (handshakes_out t)
    (address_changed t) (new_address t) (config_changed t) (new_config t).
Definition set_tx_length (v : Z) :=
  mkInterface (setup t) (data_requested t) (status_requested t) (rx t)
    (handshakes_in t) (active_config t)
    (tx t) v (tx_sequence_number t) (handshakes_out t)
    (address_changed t) (new_address t) (config_changed t) (new_config t).
Definition set_tx_sequence_number (v : Z) :=
  mkInterface (setup t) (data_requested t) (status_requested t) (rx t)
    (handshakes_in t) (active_config t)
    (tx t) (tx_length t) v (handshakes_out t)
    (address_changed t) (new_address t) (config_changed t) (new_config t).
Definition set_handshakes_out (v : HandshakeGeneratorInterface) :=
  mkInterface (setup t) (data_requested t) (status_requested t) (rx t)
    (handshakes_in t) (active_config t)
    (tx t) (tx_length t) (tx_sequence_number t) v
    (address_changed t) (new_address t) (config_changed t) (new_config t).
Definition set_address_changed (v : bool) :=
  mkInterface (setup t) (data_requested t) (status_requested t) (rx t)
    (handshakes_in t) (active_config t)
    (tx t) (tx_length t) (tx_sequence_number t) (handshakes_out t)
    v (new_address t) (config_changed t) (new_config t).
Definition set_new_address (v : Z) :=
  mkInterface (setup t) (data_requested t) (status_requested t) (rx t)
    (handshakes_in t) (active_config t)
    (tx t) (tx_length t) (tx_sequence_number t) (handshakes_out t)
    (address_changed t) v (config_changed t) (new_config t).
Definition set_config_changed (v : bool) :=
  mkInterface (setup t) (data_requested t) (status_requested t) (rx t)
    (handshakes_in t) (active_config t)
    (tx t) (tx_length t) (tx_sequence_number t) (handshakes_out t)
    (address_changed t) (new_address t) v (new_config t).
Definition set_new_config (v : Z) :=
  mkInterface (setup t) (data_requested t) (status_requested t) (rx t)
    (handshakes_in t) (active_config t)
    (tx t) (tx_length t) (tx_sequence_number t) (handshakes_out t)
    (address_changed t) (new_address t) (config_changed t) v.

(** The handler-driven signals at their reset values: what a
    combinational signal holds when no statement drives it. *)
Definition undriven :=
  mkInterface (setup t) (data_requested t) (status_requested t) (rx t)
    (handshakes_in t) (active_config t)
    Stream_reset 0 0 Handshakes_reset false 0 false 0.

End InterfaceAssignments.

(** ** SuperSpeedRequestHandlerMultiplexer *)

Module Mux.

(** The names [_multiplex_signals] is called with. *)
Module Name.
Inductive t := address_changed | new_address | config_changed | new_config.
End Name.

(** [get_signal(interface, name)] used as the condition of an [If]: a
    signal is true when it is not zero. *)
Definition condition_of (interface : SuperSpeedRequestHandlerInterface)
    (name : Name.t) : bool :=
  match name with
  | Name.address_changed => address_changed interface
  | Name.new_address => Bits.any 7 (new_address interface)
  | Name.config_changed => config_changed interface
  | Name.new_config => Bits.any 8 (new_config interface)
  end.

(** [get_signal(self.shared, name).eq(get_signal(interface, name))]. *)
Definition connect_signal (name : Name.t)
    (interface shared : SuperSpeedRequestHandlerInterface) :
    SuperSpeedRequestHandlerInterface :=
  match name with
  | Name.address_changed =>
      set_address_changed shared (address_changed interface)
  | Name.new_address => set_new_address shared (new_address interface)
  | Name.config_changed =>
      set_config_changed shared (config_changed interface)
  | Name.new_config => set_new_config shared (new_config interface)
  end.

(** The if-elif tree of [_multiplex_signals]: the first interface opens
    the [If], each later one is an [Elif], so the body of an interface is
    active only when the conditions of all earlier ones are false. *)
Fixpoint _multiplex_signals (when : Name.t) (multiplex : list Name.t)
    (interfaces : list SuperSpeedRequestHandlerInterface)
    (shared : SuperSpeedRequestHandlerInterface) :
    SuperSpeedRequestHandlerInterface :=
  match interfaces with
  | [] => shared
  | interface :: rest =>
      if condition_of interface when then
        foldl (fun m signal_name => connect_signal signal_name interface m)
              shared multiplex
      else _multiplex_signals when multiplex rest shared
  end.

(** The body of the transmit loop for one interface (lines 283-288).
    [stream_eq] copies the stream from the interface to the shared side. *)
Definition connect_tx (m interface : SuperSpeedRequestHandlerInterface) :=
  if Bits.any VALID_BITS (valid (tx interface)) then
    let m := set_tx m (tx interface) in
    let m := set_tx_sequence_number m (tx_sequence_number interface) in
    set_tx_length m (tx_length interface)
  else m.

(** The body of the handshake loop for one interface (lines 295-303). *)
Definition connect_handshakes_out
    (m interface : SuperSpeedRequestHandlerInterface) :=
  let any_generate_signal_asserted :=
    send_ack (handshakes_out interface)
    || send_stall (handshakes_out interface) in
  if any_generate_signal_asserted then
    set_handshakes_out m (handshakes_out interface)
  else m.

(** The shared interface as [elaborate] drives it in one cycle, from the
    registered interfaces in registration order.  The argument [shared]
    supplies the signals the bus drives. *)
Definition elaborate (interfaces : list SuperSpeedRequestHandlerInterface)
    (shared : SuperSpeedRequestHandlerInterface) :
    SuperSpeedRequestHandlerInterface :=
  let m := undriven shared in
  let m :=
    _multiplex_signals Name.address_changed
      [Name.address_changed; Name.new_address] interfaces m in
  let m :=
    _multiplex_signals Name.config_changed
      [Name.config_changed; Name.new_config] interfaces m in
  let m := foldl connect_tx m interfaces in
  let m := foldl connect_handshakes_out m interfaces in
  m.



(** The interface at index [j] asserts, and none registered after it. *)
Definition last_asserting (asserts : SuperSpeedRequestHandlerInterface → bool)
    (interfaces : list SuperSpeedRequestHandlerInterface) (j : nat)
    (x : SuperSpeedRequestHandlerInterface) : Prop :=
  interfaces !! j = Some x ∧ asserts x = true ∧
  ∀ k y, (j < k)%nat → interfaces !! k = Some y → asserts y = false.

Definition tx_valid (x : SuperSpeedRequestHandlerInterface) : bool :=
  Bits.any VALID_BITS (valid (tx x)).

(** The shared signals when the transmit loop of [elaborate] starts. *)
Definition after_trees (interfaces : list SuperSpeedRequestHandlerInterface)
    (shared : SuperSpeedRequestHandlerInterface) :=
  _multiplex_signals Name.config_changed
    [Name.config_changed; Name.new_config] interfaces
    (_multiplex_signals Name.address_changed
       [Name.address_changed; Name.new_address] interfaces
       (undriven shared)).

(** The assignments in the body of the transmit loop. *)
Definition drive_tx (m y : SuperSpeedRequestHandlerInterface) :=
  set_tx_length
    (set_tx_sequence_number (set_tx m (tx y)) (tx_sequence_number y))
    (tx_length y).

Definition handshake_requested (x : SuperSpeedRequestHandlerInterface) : bool :=
  send_ack (handshakes_out x) || send_stall (handshakes_out x).

End Mux.

(** ** StallOnlyRequestHandler *)

Module StallOnly.

Section Handler.

(** [stall_condition], applied to the setup packet and used as the
    condition of an [If]. *)
Variable condition : SetupPacket → bool.

(** [falling_edge_detected] is defined in [luna/gateware/utils], which is
    not among the sources: a register in the [ss] domain, the signal it
    returns, and the register's next value. *)
Variable edge_register : Type.
Variable falling_edge_detected : edge_register → Z → bool.
Variable edge_register_next : edge_register → Z → edge_register.

(** The value [elaborate] gives [interface.handshakes_out.stall] in a
    cycle; the signal is combinational and zero unless driven. *)
Definition stall_driven (reg : edge_register)
    (interface : SuperSpeedRequestHandlerInterface) : bool :=
  let data_received := falling_edge_detected reg (valid (rx interface)) in
  if data_requested interface || status_requested interface || data_received
  then
    if condition (setup interface) then true else false
  else false.

(** One cycle of the handler: the interface with the handler-driven
    signals as [elaborate] leaves them, and the detector's register. *)
Definition elaborate (reg : edge_register)
    (interface : SuperSpeedRequestHandlerInterface) :
    SuperSpeedRequestHandlerInterface * edge_register :=
  (set_handshakes_out (undriven interface)
     (set_stall (stall_driven reg interface) Handshakes_reset),
   edge_register_next reg (valid (rx interface))).

(** The handler over consecutive cycles: the stall signal of each. *)
Fixpoint run (reg : edge_register)
    (cycles : list SuperSpeedRequestHandlerInterface) : list bool :=
  match cycles with
  | [] => []
  | interface :: rest =>
      let '(out, reg') := elaborate reg interface in
      stall (handshakes_out out) :: run reg' rest
  end.

End Handler.

Arguments stall_driven condition {edge_register} falling_edge_detected.
Arguments elaborate condition {edge_register} falling_edge_detected
  edge_register_next.
Arguments run condition {edge_register} falling_edge_detected
  edge_register_next.



End StallOnly.

(** ** Statements and sample cycles used below *)

Module DecoderSamples.
Import Decoder.
Local Open Scope Z_scope.

(** A value that fits the 32-bit data word of the stream. *)
Definition is_word32 (w : Z) : Prop := 0 ≤ w < 2 ^ 32.

(** The decoder does not publish in a cycle: the request fields of
    [self.packet] keep their value and [received] is low afterwards. *)
Definition no_publish (s : state) (i : inputs) : Prop :=
  request_bytes (packet (elaborate s i)) = request_bytes (packet s) ∧
  received (packet (elaborate s i)) = false.

(** The reading of "a bad verdict in any state, or a second word that
    is not last, never publishes and returns to WAIT_FOR_FIRST" over
    all cycles. *)
Definition bad_or_malformed_always_resets : Prop :=
  ∀ s i,
    rx_bad i = true ∨
    (fsm s = PARSE_SECOND ∧ Bits.all VALID_BITS (valid (sink i)) = true ∧
     last (sink i) = false) →
    no_publish s i ∧ fsm (elaborate s i) = WAIT_FOR_FIRST.

(** GET_DESCRIPTOR(device), 18 bytes: 80 06 00 01 | 00 00 12 00. *)
Definition first_word : inputs :=
  mkInputs (mkStream 0x01000680 15 true false) false false (mkHeader true).
Definition second_word : inputs :=
  mkInputs (mkStream 0x00120000 15 false true) false false (mkHeader true).
Definition quiet : inputs :=
  mkInputs (mkStream 0 0 false false) false false (mkHeader false).
Definition good : inputs :=
  mkInputs (mkStream 0 0 false false) true false (mkHeader false).
Definition bad : inputs :=
  mkInputs (mkStream 0 0 false false) false true (mkHeader false).
Definition good_and_bad : inputs :=
  mkInputs (mkStream 0 0 false false) true true (mkHeader false).
(** The first word of a setup packet in a cycle that also has [rx_bad]. *)
Definition first_word_with_bad : inputs :=
  mkInputs (mkStream 0x01000680 15 true false) false true (mkHeader true).
(** SET_ADDRESS(5): 00 05 05 00 | 00 00 00 00. *)
Definition other_first_word : inputs :=
  mkInputs (mkStream 0x00050500 15 true false) false false (mkHeader true).
(** A second word that is valid but not the last of its packet. *)
Definition second_word_not_last : inputs :=
  mkInputs (mkStream 0x00120000 15 false false) false false (mkHeader true).

End DecoderSamples.

Module MuxSamples.
Import Mux.
Local Open Scope Z_scope.

(** An interface on which the handler drives nothing. *)
Definition idle : SuperSpeedRequestHandlerInterface :=
  mkInterface SetupPacket_reset false false Stream_reset 0 0
    Stream_reset 0 0 Handshakes_reset false 0 false 0.

(** A handler that requests the device address [a] and the
    configuration [a + 1]. *)
Definition requests_address (a : Z) : SuperSpeedRequestHandlerInterface :=
  set_new_config
    (set_config_changed (set_new_address (set_address_changed idle true) a)
       true)
    (a + 1).

(** A handler that sends the word [w] (all four bytes valid) as packet
    number [n] of length 4. *)
Definition sends_word (w n : Z) : SuperSpeedRequestHandlerInterface :=
  set_tx_length
    (set_tx_sequence_number (set_tx idle (mkStream w 15 true true)) n) 4.

(** A handler that requests an ACK, with [f] in its other fields. *)
Definition sends_ack (f : Z) : SuperSpeedRequestHandlerInterface :=
  set_handshakes_out idle (mkHandshakes true false false f).

(** A handler that requests a STALL, with [f] in its other fields. *)
Definition sends_stall (f : Z) : SuperSpeedRequestHandlerInterface :=
  set_handshakes_out idle (mkHandshakes false true false f).




End MuxSamples.

Module StallSamples.
Local Open Scope Z_scope.




End StallSamples.

(** ** Further statements about the decoder *)

Module DecoderMore.
Import Decoder.
Local Open Scope Z_scope.

(** The condition of the [If] in WAIT_FOR_FIRST (line 111). *)
Definition starts_setup (i : inputs) : bool :=
  Bits.all VALID_BITS (valid (sink i)) && first (sink i)
  && setup (header_in i).

(** A setup packet fits the 64 request bits. *)
Definition fits (p : SetupPacket) : Prop :=
  0 ≤ request_bytes p < 2 ^ SETUP_BITS.

(** The registers hold 64 request bits and the local packet's strobe
    is never set. *)
Definition registers_fit (s : state) : Prop :=
  fits (packet s) ∧ fits (local_packet s) ∧
  received (local_packet s) = false.

(** A cycle that PARSE_SECOND lets pass: not all byte lanes are valid
    and there is no [rx_bad]. *)
Definition no_second_word (i : inputs) : Prop :=
  Bits.all VALID_BITS (valid (sink i)) = false ∧ rx_bad i = false.

(** The cycles of one complete delivery of the words [w0] and [w1]: the
    first word of a setup packet, the last word without [rx_bad], any
    number of cycles without verdict, and a cycle with [rx_good]. *)
Definition delivers (w0 w1 : Z) (cycles : list inputs) : Prop :=
  ∃ i1 i2 idle i3,
    cycles = i1 :: i2 :: idle ++ [i3] ∧
    starts_setup i1 = true ∧ data (sink i1) = w0 ∧
    Bits.all VALID_BITS (valid (sink i2)) = true ∧ last (sink i2) = true ∧
    rx_bad i2 = false ∧ data (sink i2) = w1 ∧
    Forall no_verdict idle ∧
    rx_good i3 = true.

(** The packet published for the words [w0] and [w1]. *)
Definition setup_of_words (w0 w1 : Z) : SetupPacket :=
  mkSetupPacket
    (Z.lor (Z.land w0 (Z.ones 32)) (Z.shiftl (Z.land w1 (Z.ones 32)) 32))
    true.

(** The cycles [first; last; good] that deliver [w0] and [w1]. *)
Definition delivery (w0 w1 : Z) : list inputs :=
  [ mkInputs (mkStream w0 15 true false) false false (mkHeader true);
    mkInputs (mkStream w1 15 false true) false false (mkHeader true);
    mkInputs (mkStream 0 0 false false) true false (mkHeader false) ].

End DecoderMore.

(** ** Further statements about the multiplexer *)

Module MuxMore.
Import Mux.
Local Open Scope Z_scope.

(** The interface asserts at least one of the four triggers the
    multiplexer tests. *)
Definition drives (x : SuperSpeedRequestHandlerInterface) : bool :=
  address_changed x || config_changed x || tx_valid x
  || handshake_requested x.

(** At most one registered interface asserts the trigger. *)
Definition at_most_one (asserts : SuperSpeedRequestHandlerInterface → bool)
    (interfaces : list SuperSpeedRequestHandlerInterface) : Prop :=
  (length (filter (λ x, asserts x = true) interfaces) ≤ 1)%nat.

(** The expectation of [add_interface]: only one handler drives each
    group of signals at a time. *)
Definition exclusive
    (interfaces : list SuperSpeedRequestHandlerInterface) : Prop :=
  at_most_one address_changed interfaces ∧
  at_most_one config_changed interfaces ∧
  at_most_one tx_valid interfaces ∧
  at_most_one handshake_requested interfaces.

(** The values fit the widths [__init__] declares (lines 39-52):
    [tx_length] is a [Signal(range(MAX_PACKET_LENGTH + 1))], 11 bits. *)
Definition in_declared_widths
    (x : SuperSpeedRequestHandlerInterface) : Prop :=
  0 ≤ tx_length x < 2 ^ 11 ∧
  0 ≤ tx_sequence_number x < 2 ^ 5 ∧
  0 ≤ new_address x < 2 ^ 7 ∧
  0 ≤ new_config x < 2 ^ 8.

(** [add_interface]: the interface is appended to [_interfaces]. *)
Definition add_interface
    (interfaces : list SuperSpeedRequestHandlerInterface)
    (interface : SuperSpeedRequestHandlerInterface) :=
  interfaces ++ [interface].

(** The four parts of [elaborate] that drive the shared interface. *)
Definition address_tree interfaces m :=
  _multiplex_signals Name.address_changed
    [Name.address_changed; Name.new_address] interfaces m.
Definition config_tree interfaces m :=
  _multiplex_signals Name.config_changed
    [Name.config_changed; Name.new_config] interfaces m.
Definition tx_loop (interfaces : list SuperSpeedRequestHandlerInterface) m :=
  foldl connect_tx m interfaces.
Definition handshake_loop
    (interfaces : list SuperSpeedRequestHandlerInterface) m :=
  foldl connect_handshakes_out m interfaces.





End MuxMore.

(** * Properties of the setup decoder *)

Section DecoderFacts.
Import Decoder DecoderSamples.
Local Open Scope Z_scope.

Lemma land_ones_word32 w : is_word32 w → Z.land w (Z.ones 32) = w.
Proof.
  intros [Hlo Hhi]. rewrite Z.land_ones by lia. apply Z.mod_small. lia.
Qed.

(** The request bytes after both words were assigned, whatever the
    buffer held before. *)
Lemma word_assign_both_bits b w0 w1 :
  Bits.word_assign SETUP_BITS 1 32 w1 (Bits.word_assign SETUP_BITS 0 32 w0 b)
  = Z.lor (Z.land w0 (Z.ones 32)) (Z.shiftl (Z.land w1 (Z.ones 32)) 32).
Proof.
  unfold Bits.word_assign, SETUP_BITS.
  change (1 * 32) with 32. change (0 * 32) with 0.
  apply Z.bits_inj'. intros n Hn.
  rewrite !Z.lor_spec, !Z.land_spec, !Z.lxor_spec, !Z.lor_spec, !Z.land_spec,
    !Z.lxor_spec.
  rewrite !Z.shiftl_spec by lia.
  rewrite !Z.land_spec.
  rewrite !Z.testbit_ones by lia.
  rewrite Z.sub_0_r.
  destruct (Z.leb_spec 0 n); [|lia].
  destruct (Z.ltb_spec n 64), (Z.ltb_spec n 32),
    (Z.leb_spec 0 (n - 32)), (Z.ltb_spec (n - 32) 32); try lia; simpl;
    rewrite ?andb_false_r, ?andb_true_r, ?orb_false_r, ?orb_false_l; done.
Qed.

Lemma word_select_low_of_both w0 w1 :
  Bits.word_select 0 32
    (Z.lor (Z.land w0 (Z.ones 32)) (Z.shiftl (Z.land w1 (Z.ones 32)) 32))
  = Z.land w0 (Z.ones 32).
Proof.
  unfold Bits.word_select. change (0 * 32) with 0. rewrite Z.shiftr_0_r.
  apply Z.bits_inj'. intros n Hn.
  rewrite !Z.land_spec, !Z.lor_spec, !Z.shiftl_spec, !Z.land_spec by lia.
  rewrite !Z.testbit_ones by lia.
  destruct (Z.leb_spec 0 n); [|lia].
  destruct (Z.ltb_spec n 32); simpl;
    rewrite ?andb_false_r, ?andb_true_r; try done.
  rewrite (Z.testbit_neg_r w1) by lia. by rewrite orb_false_r.
Qed.

Lemma word_select_high_of_both w0 w1 :
  Bits.word_select 1 32
    (Z.lor (Z.land w0 (Z.ones 32)) (Z.shiftl (Z.land w1 (Z.ones 32)) 32))
  = Z.land w1 (Z.ones 32).
Proof.
  unfold Bits.word_select. change (1 * 32) with 32.
  apply Z.bits_inj'. intros n Hn.
  rewrite !Z.land_spec, !Z.shiftr_spec, !Z.lor_spec, !Z.shiftl_spec,
    !Z.land_spec by lia.
  rewrite !Z.testbit_ones by lia.
  replace (n + 32 - 32) with n by lia.
  destruct (Z.leb_spec 0 n); [|lia].
  destruct (Z.leb_spec 0 (n + 32)); [|lia].
  destruct (Z.ltb_spec n 32), (Z.ltb_spec (n + 32) 32); try lia; simpl;
    rewrite ?andb_false_r, ?andb_true_r; done.
Qed.

(** What one cycle does to each register. *)

Lemma elaborate_received s i :
  received (packet (elaborate s i))
  = match fsm s with WAIT_FOR_VALID => rx_good i | _ => false end.
Proof.
  unfold elaborate. destruct s as [[] l p]; simpl;
    repeat (case_match; simpl); done.
Qed.

Lemma elaborate_request_bytes s i :
  request_bytes (packet (elaborate s i))
  = match fsm s with
    | WAIT_FOR_VALID =>
        if rx_good i then request_bytes (local_packet s)
        else request_bytes (packet s)
    | _ => request_bytes (packet s)
    end.
Proof.
  unfold elaborate. destruct s as [[] l p]; simpl;
    repeat (case_match; simpl); done.
Qed.

Lemma elaborate_fsm_after_publish s i :
  fsm s = WAIT_FOR_VALID → rx_good i = true →
  fsm (elaborate s i) = WAIT_FOR_FIRST.
Proof.
  unfold elaborate. destruct s as [[] l p]; simpl; intros ? Hg; try done.
  rewrite Hg. by destruct (rx_bad i).
Qed.

Lemma elaborate_first_word s i :
  fsm s = WAIT_FOR_FIRST →
  Bits.all VALID_BITS (valid (sink i)) = true → first (sink i) = true →
  setup (header_in i) = true →
  fsm (elaborate s i) = PARSE_SECOND ∧
  local_packet (elaborate s i)
  = SetupPacket_word_assign 0 (data (sink i)) (local_packet s).
Proof.
  unfold elaborate. destruct s as [[] l p]; simpl; intros ? Hv Hf Hs;
    try done.
  by rewrite Hv, Hf, Hs.
Qed.

Lemma elaborate_second_word s i :
  fsm s = PARSE_SECOND →
  Bits.all VALID_BITS (valid (sink i)) = true → last (sink i) = true →
  local_packet (elaborate s i)
  = SetupPacket_word_assign 1 (data (sink i)) (local_packet s) ∧
  fsm (elaborate s i) = (if rx_bad i then WAIT_FOR_FIRST else WAIT_FOR_VALID).
Proof.
  unfold elaborate. destruct s as [[] l p]; simpl; intros ? Hv Hl; try done.
  rewrite Hv, Hl. by destruct (rx_bad i).
Qed.

(** Waiting for the verdict keeps the buffered packet. *)
Lemma run_no_verdict idle : ∀ s,
  fsm s = WAIT_FOR_VALID → received (packet s) = false →
  Forall no_verdict idle →
  fsm (run s idle) = WAIT_FOR_VALID ∧
  local_packet (run s idle) = local_packet s ∧
  received (packet (run s idle)) = false.
Proof.
  induction idle as [|i idle IH]; intros s Hs Hr Hidle; [done|].
  apply Forall_cons in Hidle as [[Hg Hb] Hidle]. simpl.
  assert (Hstep : fsm (elaborate s i) = WAIT_FOR_VALID ∧
                  local_packet (elaborate s i) = local_packet s ∧
                  received (packet (elaborate s i)) = false).
  { unfold elaborate. destruct s as [[] l p]; simpl in *; try done.
    by rewrite Hg, Hb. }
  destruct Hstep as (Hs' & Hl' & Hr').
  destruct (IH (elaborate s i) Hs' Hr' Hidle) as (? & ? & ?).
  unfold run in *. by rewrite <- Hl'.
Qed.

(** The second word leads to WAIT_FOR_VALID exactly when the cycle that
    carries it has no [rx_bad]. *)
Lemma second_word_reaches_wait_for_valid s i1 i2 :
  fsm s = WAIT_FOR_FIRST →
  Bits.all VALID_BITS (valid (sink i1)) = true → first (sink i1) = true →
  setup (header_in i1) = true →
  Bits.all VALID_BITS (valid (sink i2)) = true → last (sink i2) = true →
  fsm (run s [i1; i2]) = WAIT_FOR_VALID ↔ rx_bad i2 = false.
Proof.
  intros Hs Hv1 Hf1 Hh1 Hv2 Hl2. simpl.
  destruct (elaborate_first_word s i1 Hs Hv1 Hf1 Hh1) as [Hp _].
  destruct (elaborate_second_word _ i2 Hp Hv2 Hl2) as [_ ->].
  by destruct (rx_bad i2).
Qed.

(** C1: from WAIT_FOR_FIRST, a valid first word of a setup packet, then a
    valid last word, then (after any number of cycles without verdict) a
    cycle in WAIT_FOR_VALID with [rx_good]: one cycle after the verdict
    the published SetupPacket holds the first word in its low half and
    the second in its high half, and [received] is high in that cycle
    only: low during the verdict cycle, low again one cycle later. *)
Theorem setup_packet_published_after_good
    (s : state) (i1 i2 i3 : inputs) (idle : list inputs) :
  fsm s = WAIT_FOR_FIRST →
  Bits.all VALID_BITS (valid (sink i1)) = true → first (sink i1) = true →
  setup (header_in i1) = true → is_word32 (data (sink i1)) →
  Bits.all VALID_BITS (valid (sink i2)) = true → last (sink i2) = true →
  is_word32 (data (sink i2)) →
  fsm (run s [i1; i2]) = WAIT_FOR_VALID →
  Forall no_verdict idle →
  rx_good i3 = true →
  let before := run s ([i1; i2] ++ idle) in
  let after := elaborate before i3 in
  fsm before = WAIT_FOR_VALID ∧
  received (packet before) = false ∧
  Bits.word_select 0 32 (request_bytes (packet after)) = data (sink i1) ∧
  Bits.word_select 1 32 (request_bytes (packet after)) = data (sink i2) ∧
  request_bytes (packet after)
    = Z.lor (data (sink i1)) (Z.shiftl (data (sink i2)) 32) ∧
  received (packet after) = true ∧
  ∀ i4, received (packet (elaborate after i4)) = false.
Proof.
  intros Hs Hv1 Hf1 Hh1 Hw1 Hv2 Hl2 Hw2 Hwait Hidle Hg before after.
  destruct (elaborate_first_word s i1 Hs Hv1 Hf1 Hh1) as [Hp Hl1].
  destruct (elaborate_second_word _ i2 Hp Hv2 Hl2) as [Hl2' _].
  set (s2 := run s [i1; i2]) in *.
  assert (Hr2 : received (packet s2) = false).
  { unfold s2. simpl. by rewrite elaborate_received, Hp. }
  destruct (run_no_verdict idle s2 Hwait Hr2 Hidle) as (Hb & Hlb & Hrb).
  assert (Hbefore : before = run s2 idle).
  { unfold before, s2, run. by rewrite foldl_app. }
  rewrite <- Hbefore in Hb, Hlb, Hrb.
  assert (Hbytes : request_bytes (packet after)
                   = Z.lor (data (sink i1)) (Z.shiftl (data (sink i2)) 32)).
  { unfold after. rewrite elaborate_request_bytes, Hb, Hg, Hlb.
    unfold s2. simpl. rewrite Hl2', Hl1. simpl.
    rewrite word_assign_both_bits.
    by rewrite !land_ones_word32. }
  split_and!; try done.
  - rewrite Hbytes. rewrite <- (land_ones_word32 _ Hw1) at 1.
    rewrite <- (land_ones_word32 _ Hw2) at 1.
    rewrite word_select_low_of_both. by apply land_ones_word32.
  - rewrite Hbytes. rewrite <- (land_ones_word32 _ Hw1) at 1.
    rewrite <- (land_ones_word32 _ Hw2) at 1.
    rewrite word_select_high_of_both. by apply land_ones_word32.
  - unfold after. by rewrite elaborate_received, Hb.
  - intros i4. rewrite elaborate_received.
    unfold after. by rewrite (elaborate_fsm_after_publish _ _ Hb Hg).
Qed.

Lemma setup_packet_published_after_good_witness :
  let after := elaborate (run reset [first_word; second_word; quiet]) good in
  SetupFields.request_type (packet after) = 0x80 ∧
  SetupFields.request (packet after) = 6 ∧
  SetupFields.value (packet after) = 0x0100 ∧
  SetupFields.index (packet after) = 0 ∧
  SetupFields.length (packet after) = 18 ∧
  Bits.word_select 0 32 (request_bytes (packet after)) = 0x01000680 ∧
  Bits.word_select 1 32 (request_bytes (packet after)) = 0x00120000 ∧
  received (packet after) = true ∧
  received (packet (elaborate after first_word)) = false.
Proof.
  pose proof (setup_packet_published_after_good reset first_word second_word
                good [quiet]) as H.
  destruct H as (_ & _ & H0 & H1 & _ & Hr & Hn);
    [reflexivity | reflexivity | reflexivity | reflexivity
    | unfold is_word32; simpl; lia
    | reflexivity | reflexivity | unfold is_word32; simpl; lia
    | reflexivity
    | repeat constructor
    | reflexivity |].
  split_and!; [reflexivity .. | exact H0 | exact H1 | exact Hr | exact (Hn _)].
Defined.

(** C2, as stated, fails on the code.  In WAIT_FOR_FIRST [rx_bad] is
    not examined, so the first word of a setup packet arriving together
    with [rx_bad] moves the decoder to PARSE_SECOND; and in
    WAIT_FOR_VALID [rx_good] together with [rx_bad] publishes the
    buffered packet. *)
Lemma bad_or_malformed_always_resets_fails :
  (rx_bad first_word_with_bad = true ∧
   fsm reset = WAIT_FOR_FIRST ∧
   fsm (elaborate reset first_word_with_bad) = PARSE_SECOND) ∧
  (let s := run reset [first_word; second_word] in
   rx_bad good_and_bad = true ∧
   fsm s = WAIT_FOR_VALID ∧
   received (packet (elaborate s good_and_bad)) = true ∧
   request_bytes (packet s) = 0 ∧
   request_bytes (packet (elaborate s good_and_bad)) = 0x0012000001000680) ∧
  ¬ bad_or_malformed_always_resets.
Proof.
  cbv zeta. split_and!; try reflexivity.
  intros H.
  destruct (H reset first_word_with_bad) as [_ Hfsm]; [by left|].
  discriminate Hfsm.
Qed.

(** C2 (amended): [rx_bad] while the decoder is in PARSE_SECOND, or in
    WAIT_FOR_VALID without [rx_good], or a valid word that is not last
    in PARSE_SECOND: nothing is published (the request fields of the
    SetupPacket are unchanged, [received] is low in the next cycle) and
    the decoder returns to WAIT_FOR_FIRST.  In WAIT_FOR_FIRST [rx_bad]
    is not examined: nothing is published, and the decoder stays there
    unless the first word of a setup packet arrives in that cycle. *)
Theorem discarded_packet_resets (s : state) (i : inputs) :
  (discards s i → no_publish s i ∧ fsm (elaborate s i) = WAIT_FOR_FIRST) ∧
  (fsm s = WAIT_FOR_FIRST → rx_bad i = true →
   no_publish s i ∧
   fsm (elaborate s i)
   = if Bits.all VALID_BITS (valid (sink i)) && first (sink i)
        && setup (header_in i)
     then PARSE_SECOND else WAIT_FOR_FIRST).
Proof.
  unfold no_publish. rewrite elaborate_received, elaborate_request_bytes.
  split.
  - intros [(Hs & H) | (Hs & Hb & Hg)]; rewrite Hs.
    + split; [done|]. unfold elaborate. rewrite Hs.
      destruct H as [Hb | [Hv Hl]].
      * rewrite Hb. by repeat case_match.
      * rewrite Hv, Hl. by destruct (rx_bad i).
    + rewrite Hg. split; [done|]. unfold elaborate. by rewrite Hs, Hg, Hb.
  - intros Hs Hb. rewrite Hs. split; [done|].
    unfold elaborate. rewrite Hs. by case_match.
Qed.

Lemma discarded_packet_resets_witness :
  (let s := run reset [first_word; second_word] in
   no_publish s bad ∧ fsm (elaborate s bad) = WAIT_FOR_FIRST) ∧
  (let s := run reset [first_word] in
   no_publish s second_word_not_last ∧
   fsm (elaborate s second_word_not_last) = WAIT_FOR_FIRST) ∧
  (no_publish reset bad ∧ fsm (elaborate reset bad) = WAIT_FOR_FIRST).
Proof.
  split; [|split].
  - apply (proj1 (discarded_packet_resets
                    (run reset [first_word; second_word]) bad)).
    right. split; [reflexivity|]. split; reflexivity.
  - apply (proj1 (discarded_packet_resets (run reset [first_word])
                    second_word_not_last)).
    left. split; [reflexivity|]. right. split; reflexivity.
  - apply (proj2 (discarded_packet_resets reset bad)); reflexivity.
Defined.



(** C8: in WAIT_FOR_VALID, [rx_good] and [rx_bad] in the same cycle
    publish the buffered packet: in the next cycle the SetupPacket holds
    the buffered request fields with [received] high, and the decoder is
    back in WAIT_FOR_FIRST. *)
Theorem good_with_bad_still_publishes (s : state) (i : inputs) :
  fsm s = WAIT_FOR_VALID → rx_good i = true → rx_bad i = true →
  packet (elaborate s i) = SetupPacket_set_received true (local_packet s) ∧
  fsm (elaborate s i) = WAIT_FOR_FIRST.
Proof.
  intros Hs Hg Hb. unfold elaborate. by rewrite Hs, Hg, Hb.
Qed.

Lemma good_with_bad_still_publishes_witness :
  let s := run reset [first_word; second_word] in
  packet (elaborate s good_and_bad) = mkSetupPacket 0x0012000001000680 true ∧
  fsm (elaborate s good_and_bad) = WAIT_FOR_FIRST.
Proof.
  apply (good_with_bad_still_publishes
           (run reset [first_word; second_word]) good_and_bad); reflexivity.
Defined.

(** C10: in a cycle that is not (WAIT_FOR_VALID with [rx_good]) every
    field of the published SetupPacket other than [received] keeps its
    value; capturing a word changes the local buffer only. *)
Theorem published_fields_unchanged (s : state) (i : inputs) :
  ¬ (fsm s = WAIT_FOR_VALID ∧ rx_good i = true) →
  request_bytes (packet (elaborate s i)) = request_bytes (packet s) ∧
  SetupFields.request_type (packet (elaborate s i))
    = SetupFields.request_type (packet s) ∧
  SetupFields.request (packet (elaborate s i))
    = SetupFields.request (packet s) ∧
  SetupFields.value (packet (elaborate s i)) = SetupFields.value (packet s) ∧
  SetupFields.index (packet (elaborate s i)) = SetupFields.index (packet s) ∧
  SetupFields.length (packet (elaborate s i))
    = SetupFields.length (packet s).
Proof.
  intros H.
  assert (Hb : request_bytes (packet (elaborate s i))
               = request_bytes (packet s)).
  { rewrite elaborate_request_bytes. destruct (fsm s); try done.
    destruct (rx_good i); [|done]. by destruct H. }
  unfold SetupFields.request_type, SetupFields.request, SetupFields.value,
    SetupFields.index, SetupFields.length.
  by rewrite Hb.
Qed.

Lemma published_fields_unchanged_witness :
  let s := elaborate (run reset [first_word; second_word]) good in
  request_bytes (packet s) = 0x0012000001000680 ∧
  request_bytes (local_packet (elaborate s other_first_word))
    = 0x0012000000050500 ∧
  request_bytes (packet (elaborate s other_first_word))
    = request_bytes (packet s) ∧
  request_bytes (packet (run s [other_first_word; second_word]))
    = request_bytes (packet s).
Proof.
  set (s := elaborate (run reset [first_word; second_word]) good).
  split_and!; [reflexivity | reflexivity | |].
  - apply (published_fields_unchanged s other_first_word).
    intros [H _]. discriminate H.
  - simpl.
    transitivity (request_bytes (packet (elaborate s other_first_word))).
    + apply (published_fields_unchanged (elaborate s other_first_word)
               second_word).
      intros [H _]. discriminate H.
    + apply (published_fields_unchanged s other_first_word).
      intros [H _]. discriminate H.
Defined.

End DecoderFacts.

(** * Properties of the multiplexer *)

Section MuxFacts.
Import Mux MuxSamples.
Local Open Scope Z_scope.

Implicit Types (interfaces : list SuperSpeedRequestHandlerInterface).
Implicit Types (x y m shared : SuperSpeedRequestHandlerInterface).

(** *** The if-elif tree *)


Lemma multiplex_signals_none when multiplex interfaces m :
  (∀ y, y ∈ interfaces → condition_of y when = false) →
  _multiplex_signals when multiplex interfaces m = m.
Proof.
  induction interfaces as [|a l IH]; intros H; [done|]. simpl.
  rewrite (H a) by apply list_elem_of_here.
  apply IH. intros y Hy. apply H. by apply list_elem_of_further.
Qed.

(** A signal that no body of the tree assigns keeps its value. *)
Lemma multiplex_signals_preserves {A} (proj : _ → A) when multiplex :
  (∀ n x m, n ∈ multiplex → proj (connect_signal n x m) = proj m) →
  ∀ interfaces m,
    proj (_multiplex_signals when multiplex interfaces m) = proj m.
Proof.
  intros Hproj. induction interfaces as [|a l IH]; intros m; [done|].
  simpl. destruct (condition_of a when); [|apply IH].
  clear IH. revert m Hproj.
  induction multiplex as [|n ns IHn]; intros m Hproj; [done|]. simpl.
  rewrite IHn.
  - apply Hproj. apply list_elem_of_here.
  - intros n' x' m' Hn'. apply Hproj. by apply list_elem_of_further.
Qed.

(** *** The parallel [If]s *)

Lemma foldl_preserves {A B C} (step : A → B → A) (proj : A → C) :
  (∀ acc e, proj (step acc e) = proj acc) →
  ∀ l acc, proj (foldl step acc l) = proj acc.
Proof.
  intros H. induction l as [|a l IH]; intros acc; [done|].
  simpl. by rewrite IH.
Qed.

Lemma foldl_inactive {A B} (step : A → B → A) (l : list B) : ∀ acc,
  (∀ e acc', e ∈ l → step acc' e = acc') → foldl step acc l = acc.
Proof.
  induction l as [|a l IH]; intros acc H; [done|]. simpl.
  rewrite (H a) by apply list_elem_of_here.
  apply IH. intros e acc' He. apply H. by apply list_elem_of_further.
Qed.

(** With [step m x = if asserts x then drive m x else m], the result is
    [drive] of the last asserting element over what came before it. *)
Lemma foldl_last_asserting (asserts : _ → bool) (drive : _ → _ → _)
    interfaces (j : nat) x m :
  last_asserting asserts interfaces j x →
  foldl (λ m y, if asserts y then drive m y else m) m interfaces
  = drive (foldl (λ m y, if asserts y then drive m y else m) m
             (take j interfaces)) x.
Proof.
  intros (Hj & Hx & Hafter).
  rewrite <- (take_drop_middle interfaces j x Hj) at 1.
  rewrite foldl_app. simpl. rewrite Hx.
  apply foldl_inactive. intros y m' Hy.
  apply list_elem_of_lookup in Hy as [k Hk].
  rewrite lookup_drop in Hk.
  by rewrite (Hafter (S j + k)%nat y) by (done || lia).
Qed.

(** *** Each group of shared signals is driven by one part of [elaborate] *)

Ltac preserved_by_loops :=
  unfold elaborate; cbv zeta;
  rewrite (foldl_preserves connect_handshakes_out)
    by (intros acc e; unfold connect_handshakes_out; by case_match);
  rewrite (foldl_preserves connect_tx)
    by (intros acc e; unfold connect_tx; by case_match).

Ltac not_in_multiplex :=
  let n := fresh "n" in
  let Hn := fresh "Hn" in
  intros n ? ? Hn; destruct n; try done;
  repeat (apply elem_of_cons in Hn as [Hn|Hn]; [discriminate Hn|]);
  by apply elem_of_nil in Hn.

Ltac preserved_by_tree :=
  rewrite multiplex_signals_preserves by not_in_multiplex.

Ltac preserved_by_tree_at proj :=
  rewrite (multiplex_signals_preserves proj) by not_in_multiplex.

Lemma elaborate_address_changed interfaces shared :
  address_changed (elaborate interfaces shared)
  = address_changed
      (_multiplex_signals Name.address_changed
         [Name.address_changed; Name.new_address] interfaces
         (undriven shared)).
Proof. preserved_by_loops. by preserved_by_tree. Qed.

Lemma elaborate_new_address interfaces shared :
  new_address (elaborate interfaces shared)
  = new_address
      (_multiplex_signals Name.address_changed
         [Name.address_changed; Name.new_address] interfaces
         (undriven shared)).
Proof. preserved_by_loops. by preserved_by_tree. Qed.

Lemma elaborate_config_changed interfaces shared :
  config_changed (elaborate interfaces shared)
  = config_changed
      (_multiplex_signals Name.config_changed
         [Name.config_changed; Name.new_config] interfaces
         (_multiplex_signals Name.address_changed
            [Name.address_changed; Name.new_address] interfaces
            (undriven shared))).
Proof. by preserved_by_loops. Qed.

Lemma elaborate_new_config interfaces shared :
  new_config (elaborate interfaces shared)
  = new_config
      (_multiplex_signals Name.config_changed
         [Name.config_changed; Name.new_config] interfaces
         (_multiplex_signals Name.address_changed
            [Name.address_changed; Name.new_address] interfaces
            (undriven shared))).
Proof. by preserved_by_loops. Qed.

Lemma elaborate_tx_group {A} (proj : _ → A) interfaces shared :
  (∀ m h, proj (set_handshakes_out m h) = proj m) →
  proj (elaborate interfaces shared)
  = proj (foldl (λ m y, if tx_valid y then drive_tx m y else m)
            (after_trees interfaces shared) interfaces).
Proof.
  intros Hproj. unfold elaborate; cbv zeta.
  rewrite (foldl_preserves connect_handshakes_out)
    by (intros acc e; unfold connect_handshakes_out; by case_match).
  done.
Qed.

Lemma elaborate_handshakes_out interfaces shared :
  ∃ m,
    handshakes_out m = Handshakes_reset ∧
    handshakes_out (elaborate interfaces shared)
    = handshakes_out
        (foldl (λ m y, if handshake_requested y
                       then set_handshakes_out m (handshakes_out y) else m)
           m interfaces).
Proof.
  exists (foldl connect_tx (after_trees interfaces shared) interfaces).
  split; [|done].
  rewrite (foldl_preserves connect_tx)
    by (intros acc e; unfold connect_tx; by case_match).
  unfold after_trees. by do 2 preserved_by_tree.
Qed.

Lemma after_trees_tx interfaces shared :
  tx (after_trees interfaces shared) = Stream_reset ∧
  tx_length (after_trees interfaces shared) = 0 ∧
  tx_sequence_number (after_trees interfaces shared) = 0.
Proof. unfold after_trees. split_and!; by do 2 preserved_by_tree. Qed.







(** C6: a handler whose tx.valid is asserted drives the shared tx
    stream, tx_length and tx_sequence_number; when several assert
    tx.valid in the same cycle, the shared values are those of the last
    of them in registration order. *)
Theorem last_valid_tx_wins interfaces shared (j : nat) x :
  last_asserting tx_valid interfaces j x →
  tx (elaborate interfaces shared) = tx x ∧
  tx_length (elaborate interfaces shared) = tx_length x ∧
  tx_sequence_number (elaborate interfaces shared) = tx_sequence_number x.
Proof.
  intros H.
  rewrite !elaborate_tx_group by done.
  by rewrite (foldl_last_asserting tx_valid drive_tx interfaces j x _ H).
Qed.

Lemma last_valid_tx_wins_witness :
  let shared :=
    elaborate [sends_word 7 1; sends_ack 0; sends_word 9 2; idle] idle in
  tx shared = mkStream 9 15 true true ∧
  tx_length shared = 4 ∧ tx_sequence_number shared = 2.
Proof.
  apply (last_valid_tx_wins
           [sends_word 7 1; sends_ack 0; sends_word 9 2; idle] idle 2%nat
           (sends_word 9 2)).
  split_and!; [reflexivity | reflexivity |].
  intros k y Hk Hy.
  destruct k as [|[|[|[|k]]]]; [lia | lia | lia | | done].
  by injection Hy as <-.
Defined.

(** C9: when no registered handler asserts the trigger of a group, the
    shared signals of that group hold their reset value: address_changed
    (and new_address), config_changed (and new_config), the tx stream
    with its valid bits, length and sequence number, and handshakes_out
    with send_ack and send_stall are all zero. *)
Theorem undriven_groups_are_low interfaces shared :
  ((∀ x, x ∈ interfaces → address_changed x = false) →
   address_changed (elaborate interfaces shared) = false ∧
   new_address (elaborate interfaces shared) = 0) ∧
  ((∀ x, x ∈ interfaces → config_changed x = false) →
   config_changed (elaborate interfaces shared) = false ∧
   new_config (elaborate interfaces shared) = 0) ∧
  ((∀ x, x ∈ interfaces → tx_valid x = false) →
   valid (tx (elaborate interfaces shared)) = 0 ∧
   tx (elaborate interfaces shared) = Stream_reset ∧
   tx_length (elaborate interfaces shared) = 0 ∧
   tx_sequence_number (elaborate interfaces shared) = 0) ∧
  ((∀ x, x ∈ interfaces → handshake_requested x = false) →
   send_ack (handshakes_out (elaborate interfaces shared)) = false ∧
   send_stall (handshakes_out (elaborate interfaces shared)) = false ∧
   handshakes_out (elaborate interfaces shared) = Handshakes_reset).
Proof.
  split_and!; intros H.
  - rewrite elaborate_address_changed, elaborate_new_address.
    by rewrite multiplex_signals_none.
  - rewrite elaborate_config_changed, elaborate_new_config.
    rewrite (multiplex_signals_none Name.config_changed) by done.
    preserved_by_tree_at config_changed. by preserved_by_tree_at new_config.
  - rewrite !elaborate_tx_group by done.
    rewrite foldl_inactive by (intros e acc' He; by rewrite (H e He)).
    destruct (after_trees_tx interfaces shared) as (-> & -> & ->). done.
  - destruct (elaborate_handshakes_out interfaces shared) as (m & Hm & ->).
    rewrite foldl_inactive by (intros e acc' He; by rewrite (H e He)).
    by rewrite Hm.
Qed.

Lemma undriven_groups_are_low_witness :
  let quiet_tx := elaborate [requests_address 5; sends_ack 1] idle in
  let quiet_state := elaborate [sends_word 7 1; sends_stall 2] idle in
  (valid (tx quiet_tx) = 0 ∧ tx_length quiet_tx = 0) ∧
  (address_changed quiet_state = false ∧ new_address quiet_state = 0) ∧
  (config_changed quiet_state = false ∧ new_config quiet_state = 0) ∧
  send_ack (handshakes_out (elaborate [requests_address 5] idle)) = false.
Proof.
  cbv zeta.
  assert (Hmem : ∀ (P : SuperSpeedRequestHandlerInterface → Prop) a b,
            P a → P b → ∀ x, x ∈ [a; b] → P x).
  { intros P a b Ha Hb x Hx.
    apply elem_of_cons in Hx as [->|Hx]; [done|].
    apply elem_of_cons in Hx as [->|Hx]; [done|].
    by apply elem_of_nil in Hx. }
  destruct (undriven_groups_are_low [requests_address 5; sends_ack 1] idle)
    as (_ & _ & Htx & _).
  destruct (undriven_groups_are_low [sends_word 7 1; sends_stall 2] idle)
    as (Ha & Hc & _ & _).
  destruct (undriven_groups_are_low [requests_address 5] idle)
    as (_ & _ & _ & Hh).
  split_and!.
  - apply Htx. by apply Hmem.
  - apply Htx. by apply Hmem.
  - apply Ha. by apply Hmem.
  - apply Ha. by apply Hmem.
  - apply Hc. by apply Hmem.
  - apply Hc. by apply Hmem.
  - apply Hh. intros x Hx. apply elem_of_cons in Hx as [->|Hx]; [done|].
    by apply elem_of_nil in Hx.
Defined.

End MuxFacts.

(** * Properties of the stall-only handler *)

Section StallFacts.
Import StallOnly StallSamples.
Local Open Scope Z_scope.



End StallFacts.

(** * Further properties of the setup decoder *)

Section DecoderMoreFacts.
Import Decoder DecoderSamples DecoderMore.
Local Open Scope Z_scope.

(** Bits of an assigned word, for the two words of a setup packet. *)
Lemma word_assign_testbit k x v n :
  k = 0 ∨ k = 1 → 0 ≤ n →
  Z.testbit (Bits.word_assign SETUP_BITS k 32 x v) n
  = if (k * 32 <=? n) && (n <? k * 32 + 32)
    then Z.testbit x (n - k * 32)
    else (n <? 64) && Z.testbit v n.
Proof.
  intros Hk Hn. unfold Bits.word_assign, SETUP_BITS.
  rewrite Z.lor_spec, Z.land_spec, Z.lxor_spec.
  rewrite !Z.shiftl_spec by lia.
  rewrite Z.land_spec.
  rewrite !Z.testbit_ones by lia.
  destruct Hk as [-> | ->]; simpl (_ * 32); simpl (_ + 32);
    rewrite ?Z.sub_0_r;
    destruct (Z.leb_spec 0 n), (Z.ltb_spec n 64), (Z.ltb_spec n 32);
    try lia; simpl;
    repeat match goal with
           | |- context [?a <=? ?b] => destruct (Z.leb_spec a b); try lia
           | |- context [?a <? ?b] => destruct (Z.ltb_spec a b); try lia
           end; simpl;
    rewrite ?andb_false_r, ?andb_true_r, ?orb_false_r, ?orb_false_l,
      ?xorb_false_r, ?xorb_true_r;
    simpl; rewrite ?andb_false_r, ?andb_true_r, ?orb_false_r; try done.
Qed.

Lemma word_select_testbit k v n :
  0 ≤ k → 0 ≤ n →
  Z.testbit (Bits.word_select k 32 v) n
  = (n <? 32) && Z.testbit v (n + k * 32).
Proof.
  intros Hk Hn. unfold Bits.word_select.
  rewrite Z.land_spec, Z.shiftr_spec, Z.testbit_ones by lia.
  destruct (Z.leb_spec 0 n); [|lia]. simpl. apply andb_comm.
Qed.

(** X1: capturing a word and reading it back.  Assigning word [k] (0 or
    1) of a setup packet makes that word the low 32 bits of the value
    assigned, leaves the other word as it was, and does not touch the
    [received] strobe. *)
Theorem word_assign_then_select (k x : Z) (p : SetupPacket) :
  k = 0 ∨ k = 1 →
  let p' := SetupPacket_word_assign k x p in
  Bits.word_select k 32 (request_bytes p') = Z.land x (Z.ones 32) ∧
  Bits.word_select (1 - k) 32 (request_bytes p')
    = Bits.word_select (1 - k) 32 (request_bytes p) ∧
  received p' = received p.
Proof.
  intros Hk p'. unfold p', SetupPacket_word_assign. simpl.
  split_and!; [| |done].
  - apply Z.bits_inj'. intros n Hn.
    rewrite word_select_testbit by lia.
    rewrite word_assign_testbit by (done || lia).
    rewrite Z.land_spec, Z.testbit_ones by lia.
    replace (n + k * 32 - k * 32) with n by lia.
    destruct (Z.leb_spec 0 n); [|lia].
    destruct (Z.ltb_spec n 32); simpl; [|by rewrite andb_false_r].
    destruct (Z.leb_spec (k * 32) (n + k * 32)); [|lia].
    destruct (Z.ltb_spec (n + k * 32) (k * 32 + 32)); [|lia].
    simpl. by rewrite andb_true_r.
  - apply Z.bits_inj'. intros n Hn.
    rewrite !word_select_testbit by lia.
    rewrite word_assign_testbit by (done || lia).
    destruct (Z.ltb_spec n 32); simpl; [|done].
    destruct Hk as [-> | ->];
      [ change ((1 - 0) * 32) with 32; change (0 * 32) with 0
      | change ((1 - 1) * 32) with 0; change (1 * 32) with 32;
        rewrite !Z.add_0_r ];
      repeat match goal with
             | |- context [?a <=? ?b] => destruct (Z.leb_spec a b); try lia
             | |- context [?a <? ?b] => destruct (Z.ltb_spec a b); try lia
             end; done.
Qed.

Lemma word_assign_then_select_witness :
  let p := mkSetupPacket 0x1122334455667788 true in
  request_bytes (SetupPacket_word_assign 1 0xAABBCCDDEE p)
    = 0xBBCCDDEE55667788 ∧
  Bits.word_select 1 32 (request_bytes (SetupPacket_word_assign 1 0xAABBCCDDEE p))
    = 0xBBCCDDEE ∧
  Bits.word_select 0 32 (request_bytes (SetupPacket_word_assign 1 0xAABBCCDDEE p))
    = 0x55667788.
Proof.
  cbv zeta. split; [reflexivity|].
  destruct (word_assign_then_select 1 0xAABBCCDDEE
              (mkSetupPacket 0x1122334455667788 true)) as (H1 & H0 & _);
    [by right|].
  split; [exact H1 | exact H0].
Defined.

Lemma word_assign_fits k x v :
  k = 0 ∨ k = 1 → 0 ≤ Bits.word_assign SETUP_BITS k 32 x v < 2 ^ SETUP_BITS.
Proof.
  intros Hk.
  assert (H : Z.land (Bits.word_assign SETUP_BITS k 32 x v) (Z.ones 64)
              = Bits.word_assign SETUP_BITS k 32 x v).
  { apply Z.bits_inj'. intros n Hn.
    rewrite Z.land_spec, Z.testbit_ones by lia.
    rewrite word_assign_testbit by (done || lia).
    destruct (Z.leb_spec 0 n); [|lia].
    destruct (Z.ltb_spec n 64); simpl; [by rewrite andb_true_r|].
    rewrite andb_false_r.
    destruct Hk as [-> | ->];
      [ change (0 * 32) with 0 | change (1 * 32) with 32 ];
      repeat match goal with
             | |- context [?a <=? ?b] => destruct (Z.leb_spec a b); try lia
             | |- context [?a <? ?b] => destruct (Z.ltb_spec a b); try lia
             end; done. }
  rewrite Z.land_ones in H by lia. rewrite <- H.
  unfold SETUP_BITS. apply Z.mod_pos_bound. lia.
Qed.

Lemma elaborate_registers_fit s i :
  registers_fit s → registers_fit (elaborate s i).
Proof.
  unfold registers_fit, fits. intros (Hp & Hl & Hr).
  unfold elaborate.
  destruct s as [[] l p]; simpl in *;
    repeat (case_match; simpl); (split; [|split]); try done;
    apply word_assign_fits; auto.
Qed.

Lemma run_registers_fit ins : ∀ s,
  registers_fit s → registers_fit (run s ins).
Proof.
  induction ins as [|i ins IH]; intros s Hs; [done|].
  simpl. apply IH. by apply elaborate_registers_fit.
Qed.

(** X2: whatever the inputs since reset, the published packet and the
    local buffer hold 64-bit values, and the strobe of the local buffer
    is never set (so publishing copies a low strobe before raising
    it). *)
Theorem registers_fit_since_reset (ins : list inputs) :
  registers_fit (run reset ins).
Proof.
  apply run_registers_fit. unfold registers_fit, fits. simpl.
  unfold SETUP_BITS. split_and!; (lia || done).
Qed.

(** X3: in WAIT_FOR_FIRST, cycles that do not carry the first word of a
    setup packet (not all lanes valid, or not first, or no setup flag in
    the header) are ignored, whatever [rx_good], [rx_bad] and [last]
    are: the decoder stays in WAIT_FOR_FIRST, the local buffer and the
    published request fields keep their values, and [received] is low
    after the first such cycle. *)
Theorem other_traffic_is_ignored (s : state) (ins : list inputs) :
  fsm s = WAIT_FOR_FIRST →
  Forall (λ i, starts_setup i = false) ins →
  fsm (run s ins) = WAIT_FOR_FIRST ∧
  local_packet (run s ins) = local_packet s ∧
  request_bytes (packet (run s ins)) = request_bytes (packet s) ∧
  (ins ≠ [] → received (packet (run s ins)) = false).
Proof.
  revert s. induction ins as [|i ins IH]; intros s Hs Hins; [done|].
  apply Forall_cons in Hins as [Hi Hins]. simpl.
  assert (Hstep : fsm (elaborate s i) = WAIT_FOR_FIRST ∧
                  local_packet (elaborate s i) = local_packet s ∧
                  request_bytes (packet (elaborate s i))
                  = request_bytes (packet s) ∧
                  received (packet (elaborate s i)) = false).
  { unfold starts_setup in Hi. unfold elaborate. rewrite Hs, Hi.
    by destruct s. }
  destruct Hstep as (Hf & Hl & Hb & Hr).
  destruct (IH (elaborate s i) Hf Hins) as (Hf' & Hl' & Hb' & Hr').
  unfold run in *. split_and!; [done | congruence | congruence |].
  intros _. destruct ins as [|i' ins]; [done|]. by apply Hr'.
Qed.

Lemma other_traffic_is_ignored_witness :
  let s := elaborate (run reset [first_word; second_word]) good in
  let ins := [bad; good_and_bad; second_word; second_word_not_last; quiet] in
  fsm (run s ins) = WAIT_FOR_FIRST ∧
  request_bytes (packet (run s ins)) = 0x0012000001000680 ∧
  received (packet (run s ins)) = false.
Proof.
  cbv zeta.
  destruct (other_traffic_is_ignored
              (elaborate (run reset [first_word; second_word]) good)
              [bad; good_and_bad; second_word; second_word_not_last; quiet])
    as (Hf & _ & Hb & Hr); [reflexivity | by repeat constructor |].
  split_and!; [exact Hf | by rewrite Hb | by apply Hr].
Defined.

(** X4: no timeout.  In WAIT_FOR_VALID, as long as neither [rx_good]
    nor [rx_bad] arrives the decoder stays in WAIT_FOR_VALID and keeps
    both the buffered and the published packet, whatever the stream
    carries in those cycles: a first word of a new setup packet that
    arrives meanwhile is not captured. *)
Theorem waits_for_verdict (s : state) (ins : list inputs) :
  fsm s = WAIT_FOR_VALID →
  Forall no_verdict ins →
  fsm (run s ins) = WAIT_FOR_VALID ∧
  local_packet (run s ins) = local_packet s ∧
  request_bytes (packet (run s ins)) = request_bytes (packet s).
Proof.
  revert s. induction ins as [|i ins IH]; intros s Hs Hins; [done|].
  apply Forall_cons in Hins as [[Hg Hb] Hins]. simpl.
  assert (Hstep : fsm (elaborate s i) = WAIT_FOR_VALID ∧
                  local_packet (elaborate s i) = local_packet s ∧
                  request_bytes (packet (elaborate s i))
                  = request_bytes (packet s)).
  { unfold elaborate. rewrite Hs, Hg, Hb. by destruct s. }
  destruct Hstep as (Hf & Hl & Hp).
  destruct (IH (elaborate s i) Hf Hins) as (Hf' & Hl' & Hp').
  unfold run in *. split_and!; [done | congruence | congruence].
Qed.

Lemma waits_for_verdict_witness :
  let s := run reset [first_word; second_word] in
  let ins := [quiet; other_first_word; second_word; quiet] in
  fsm (run s ins) = WAIT_FOR_VALID ∧
  request_bytes (local_packet (run s ins)) = 0x0012000001000680.
Proof.
  cbv zeta.
  destruct (waits_for_verdict (run reset [first_word; second_word])
              [quiet; other_first_word; second_word; quiet])
    as (Hf & Hl & _); [reflexivity | by repeat constructor |].
  split; [exact Hf | by rewrite Hl].
Defined.

(** One delivery, from any state in WAIT_FOR_FIRST. *)
Lemma run_delivers s w0 w1 cycles :
  fsm s = WAIT_FOR_FIRST → delivers w0 w1 cycles →
  fsm (run s cycles) = WAIT_FOR_FIRST ∧
  packet (run s cycles) = setup_of_words w0 w1.
Proof.
  intros Hs (i1 & i2 & idle & i3 & -> & Hst & <- & Hv2 & Hl2 & Hb2 & <- &
             Hidle & Hg).
  unfold starts_setup in Hst.
  apply andb_prop in Hst as [Hst Hh]. apply andb_prop in Hst as [Hv1 Hf1].
  destruct (elaborate_first_word s i1 Hs Hv1 Hf1 Hh) as [Hp Hl1].
  destruct (elaborate_second_word _ i2 Hp Hv2 Hl2) as [Hl2' Hfsm2].
  rewrite Hb2 in Hfsm2.
  set (s2 := elaborate (elaborate s i1) i2) in *.
  assert (Hr2 : received (packet s2) = false).
  { unfold s2. by rewrite elaborate_received, Hp. }
  destruct (run_no_verdict idle s2 Hfsm2 Hr2 Hidle) as (Hb & Hlb & _).
  change (run s (i1 :: i2 :: idle ++ [i3]))
    with (foldl elaborate s2 (idle ++ [i3])).
  rewrite foldl_app. simpl. fold (run s2 idle).
  split; [by apply elaborate_fsm_after_publish|].
  assert (Hpub : ∀ s' i, fsm s' = WAIT_FOR_VALID → rx_good i = true →
            packet (elaborate s' i)
            = mkSetupPacket (request_bytes (local_packet s')) true).
  { intros s' i Hs' Hg'. unfold elaborate. rewrite Hs', Hg'.
    by destruct (rx_bad i). }
  rewrite Hpub, Hlb, Hl2', Hl1 by done. simpl.
  unfold setup_of_words. by rewrite word_assign_both_bits.
Qed.

(** X5: deliveries chain.  Starting in WAIT_FOR_FIRST with any register
    contents, after any non-empty sequence of complete deliveries (each:
    first word, last word, cycles without verdict, [rx_good]) the
    published packet is exactly the last delivery's two words with
    [received] high, and the decoder is in WAIT_FOR_FIRST again: nothing
    of an earlier delivery or of the initial buffer remains. *)
Theorem deliveries_chain (packets : list (Z * Z * list inputs)) :
  ∀ (s : state) (w0 w1 : Z) (cycles : list inputs),
    fsm s = WAIT_FOR_FIRST →
    Forall (λ d, delivers d.1.1 d.1.2 d.2) packets →
    list.last packets = Some (w0, w1, cycles) →
    fsm (run s (concat (map snd packets))) = WAIT_FOR_FIRST ∧
    packet (run s (concat (map snd packets))) = setup_of_words w0 w1.
Proof.
  induction packets as [|d packets IH]; intros s w0 w1 cycles Hs Hall Hlast;
    [done|].
  apply Forall_cons in Hall as [Hd Hall].
  destruct (run_delivers s _ _ _ Hs Hd) as [Hf Hp].
  simpl. unfold run in *. rewrite foldl_app.
  destruct packets as [|d' packets].
  - simpl. injection Hlast as ->. by simpl in *.
  - apply (IH _ w0 w1 cycles Hf Hall). exact Hlast.
Qed.

Lemma deliveries_chain_witness :
  let ins :=
    delivery 0x01000680 0x00120000 ++ delivery 0x00050500 0
    ++ delivery 0x02000680 0x00090000 in
  fsm (run reset ins) = WAIT_FOR_FIRST ∧
  packet (run reset ins) = mkSetupPacket 0x0009000002000680 true.
Proof.
  cbv zeta.
  assert (Hd : ∀ w0 w1, delivers w0 w1 (delivery w0 w1)).
  { intros w0 w1. eexists _, _, [], _. by split_and!. }
  destruct (deliveries_chain
              [ (0x01000680, 0x00120000, delivery 0x01000680 0x00120000);
                (0x00050500, 0, delivery 0x00050500 0);
                (0x02000680, 0x00090000, delivery 0x02000680 0x00090000) ]
              reset 0x02000680 0x00090000
              (delivery 0x02000680 0x00090000)) as [Hf Hp];
    [reflexivity | repeat constructor; apply Hd | reflexivity |].
  split; [exact Hf | exact Hp].
Defined.

(** X6: whatever the inputs since reset, whenever [received] is high
    the decoder is in WAIT_FOR_FIRST: a packet is announced only when
    the decoder is ready for the next one. *)
Theorem received_means_ready (ins : list inputs) :
  received (packet (run reset ins)) = true →
  fsm (run reset ins) = WAIT_FOR_FIRST.
Proof.
  destruct ins as [|i ins _] using rev_ind; [done|].
  unfold run. rewrite foldl_app. simpl. fold (run reset ins).
  rewrite elaborate_received. intros H.
  destruct (fsm (run reset ins)) eqn:Hs; try done.
  by apply elaborate_fsm_after_publish.
Qed.

Lemma received_means_ready_witness :
  received (packet (run reset [first_word; second_word; quiet; good_and_bad]))
    = true ∧
  fsm (run reset [first_word; second_word; quiet; good_and_bad])
    = WAIT_FOR_FIRST.
Proof.
  split; [reflexivity|].
  apply (received_means_ready [first_word; second_word; quiet; good_and_bad]).
  reflexivity.
Defined.

(** X13: the second word may come late.  In PARSE_SECOND, cycles in
    which not all byte lanes are valid and [rx_bad] is low are skipped,
    whatever [first], [last], [rx_good] and the header are: the decoder
    stays in PARSE_SECOND and keeps the captured first word and the
    published packet. *)
Theorem second_word_may_come_late (s : state) (ins : list inputs) :
  fsm s = PARSE_SECOND →
  Forall no_second_word ins →
  fsm (run s ins) = PARSE_SECOND ∧
  local_packet (run s ins) = local_packet s ∧
  request_bytes (packet (run s ins)) = request_bytes (packet s).
Proof.
  revert s. induction ins as [|i ins IH]; intros s Hs Hins; [done|].
  apply Forall_cons in Hins as [[Hv Hb] Hins]. simpl.
  assert (Hstep : fsm (elaborate s i) = PARSE_SECOND ∧
                  local_packet (elaborate s i) = local_packet s ∧
                  request_bytes (packet (elaborate s i))
                  = request_bytes (packet s)).
  { unfold elaborate. rewrite Hs, Hv, Hb. by destruct s. }
  destruct Hstep as (Hf & Hl & Hp).
  destruct (IH (elaborate s i) Hf Hins) as (Hf' & Hl' & Hp').
  unfold run in *. split_and!; [done | congruence | congruence].
Qed.

Lemma second_word_may_come_late_witness :
  let gap :=
    mkInputs (mkStream 0xFFFFFFFF 7 true true) true false (mkHeader true) in
  fsm (run reset [first_word; gap; quiet; gap]) = PARSE_SECOND ∧
  packet (run reset [first_word; gap; quiet; gap; second_word; good])
  = mkSetupPacket 0x0012000001000680 true.
Proof.
  cbv zeta. split; [|reflexivity].
  apply (second_word_may_come_late (run reset [first_word])
           [ mkInputs (mkStream 0xFFFFFFFF 7 true true) true false
               (mkHeader true);
             quiet;
             mkInputs (mkStream 0xFFFFFFFF 7 true true) true false
               (mkHeader true) ]);
    [reflexivity | by repeat constructor].
Defined.

End DecoderMoreFacts.

(** * Further properties of the multiplexer *)

Section MuxMoreFacts.
Import Mux MuxSamples MuxMore.
Local Open Scope Z_scope.

Implicit Types (interfaces : list SuperSpeedRequestHandlerInterface).
Implicit Types (x y m shared : SuperSpeedRequestHandlerInterface).

Lemma elaborate_parts interfaces shared :
  elaborate interfaces shared
  = handshake_loop interfaces
      (tx_loop interfaces
         (config_tree interfaces
            (address_tree interfaces (undriven shared)))).
Proof. done. Qed.

(** A pass depends only on the interfaces some predicate [keep] keeps,
    when [keep] holds of every interface that asserts the trigger. *)
Lemma multiplex_signals_filter (keep : _ → bool) when multiplex :
  (∀ x, condition_of x when = true → keep x = true) →
  ∀ interfaces m,
    _multiplex_signals when multiplex interfaces m
    = _multiplex_signals when multiplex
        (filter (λ x, keep x = true) interfaces) m.
Proof.
  intros Hkeep. induction interfaces as [|a l IH]; intros m; [done|].
  rewrite filter_cons. destruct (decide (keep a = true)) as [Ha|Ha]; simpl.
  - by rewrite IH.
  - destruct (condition_of a when) eqn:Hc; [|apply IH].
    by rewrite Hkeep in Ha.
Qed.

Lemma foldl_filter (keep asserts : _ → bool) (drive : _ → _ → _) :
  (∀ x, asserts x = true → keep x = true) →
  ∀ interfaces m,
    foldl (λ m y, if asserts y then drive m y else m) m interfaces
    = foldl (λ m y, if asserts y then drive m y else m) m
        (filter (λ x, keep x = true) interfaces).
Proof.
  intros Hkeep. induction interfaces as [|a l IH]; intros m; [done|].
  rewrite filter_cons. destruct (decide (keep a = true)) as [Ha|Ha]; simpl.
  - by rewrite IH.
  - destruct (asserts a) eqn:Hc; [|apply IH].
    by rewrite Hkeep in Ha.
Qed.

Lemma parts_filter (keep : _ → bool) interfaces m :
  (∀ x, drives x = true → keep x = true) →
  address_tree interfaces m
    = address_tree (filter (λ x, keep x = true) interfaces) m ∧
  config_tree interfaces m
    = config_tree (filter (λ x, keep x = true) interfaces) m ∧
  tx_loop interfaces m
    = tx_loop (filter (λ x, keep x = true) interfaces) m ∧
  handshake_loop interfaces m
    = handshake_loop (filter (λ x, keep x = true) interfaces) m.
Proof.
  intros Hkeep. split_and!.
  - apply multiplex_signals_filter. intros x Hx. apply Hkeep.
    unfold drives. simpl in Hx. by rewrite Hx.
  - apply multiplex_signals_filter. intros x Hx. apply Hkeep.
    unfold drives. simpl in Hx. rewrite Hx. by destruct (address_changed x).
  - apply (foldl_filter keep tx_valid drive_tx). intros x Hx. apply Hkeep.
    unfold drives. rewrite Hx.
    by destruct (address_changed x), (config_changed x).
  - apply (foldl_filter keep handshake_requested
             (λ m y, set_handshakes_out m (handshakes_out y))).
    intros x Hx. apply Hkeep. unfold drives. rewrite Hx.
    by destruct (address_changed x), (config_changed x), (tx_valid x).
Qed.

(** X7: handlers that assert none of the four triggers
    (address_changed, config_changed, tx.valid, send_ack/send_stall)
    have no influence on the shared interface, wherever they are
    registered: the multiplexer gives the same result with them
    removed.  In particular registering such a handler with
    [add_interface] changes nothing. *)
Theorem silent_handlers_are_invisible interfaces shared :
  elaborate interfaces shared
  = elaborate (filter (λ x, drives x = true) interfaces) shared ∧
  ∀ x, drives x = false →
       elaborate (add_interface interfaces x) shared
       = elaborate interfaces shared.
Proof.
  assert (Hfilter : ∀ l, elaborate l shared
                         = elaborate (filter (λ x, drives x = true) l) shared).
  { intros l. rewrite !elaborate_parts.
    destruct (parts_filter drives l (undriven shared)) as (-> & _); [done|].
    destruct (parts_filter drives l
                (address_tree (filter (λ x, drives x = true) l)
                   (undriven shared))) as (_ & -> & _); [done|].
    destruct (parts_filter drives l
                (config_tree (filter (λ x, drives x = true) l)
                   (address_tree (filter (λ x, drives x = true) l)
                      (undriven shared)))) as (_ & _ & -> & _); [done|].
    by destruct (parts_filter drives l
                (tx_loop (filter (λ x, drives x = true) l)
                   (config_tree (filter (λ x, drives x = true) l)
                      (address_tree (filter (λ x, drives x = true) l)
                         (undriven shared))))) as (_ & _ & _ & ->). }
  split; [apply Hfilter|].
  intros x Hx. rewrite (Hfilter (add_interface interfaces x)).
  rewrite (Hfilter interfaces). unfold add_interface.
  rewrite filter_app, filter_cons_False, filter_nil, app_nil_r; [done|].
  by rewrite Hx.
Qed.

Lemma silent_handlers_are_invisible_witness :
  elaborate [idle; requests_address 20; idle; sends_word 9 2; idle] idle
  = elaborate [requests_address 20; sends_word 9 2] idle ∧
  elaborate (add_interface [sends_ack 3] idle) idle
  = elaborate [sends_ack 3] idle.
Proof.
  split.
  - apply (proj1 (silent_handlers_are_invisible
                    [idle; requests_address 20; idle; sends_word 9 2; idle]
                    idle)).
  - apply (proj2 (silent_handlers_are_invisible [sends_ack 3] idle)).
    reflexivity.
Defined.

Lemma at_most_one_permutation (asserts : _ → bool) interfaces interfaces' :
  interfaces ≡ₚ interfaces' → at_most_one asserts interfaces →
  filter (λ x, asserts x = true) interfaces
  = filter (λ x, asserts x = true) interfaces'.
Proof.
  unfold at_most_one. intros Hperm Hlen.
  assert (Hf : filter (λ x, asserts x = true) interfaces
               ≡ₚ filter (λ x, asserts x = true) interfaces')
    by by rewrite Hperm.
  destruct (filter (λ x, asserts x = true) interfaces) as [|a [|b l]].
  - by apply Permutation_nil_l in Hf.
  - by apply Permutation_singleton_l in Hf.
  - simpl in Hlen. lia.
Qed.

(** X8: under the expectation [add_interface] documents (at most one
    handler asserts address_changed, at most one config_changed, at
    most one tx.valid, at most one a handshake trigger) the order of
    registration does not matter: any permutation of the registered
    interfaces gives the same shared interface. *)
Theorem registration_order_irrelevant_when_exclusive
    interfaces interfaces' shared :
  interfaces ≡ₚ interfaces' → exclusive interfaces →
  elaborate interfaces shared = elaborate interfaces' shared.
Proof.
  intros Hperm (Ha & Hc & Ht & Hh).
  assert (Haddr : ∀ m, address_tree interfaces m = address_tree interfaces' m).
  { intros m. unfold address_tree.
    rewrite (multiplex_signals_filter address_changed Name.address_changed _
               (λ x H, H) interfaces).
    rewrite (multiplex_signals_filter address_changed Name.address_changed _
               (λ x H, H) interfaces').
    by rewrite (at_most_one_permutation _ _ _ Hperm Ha). }
  assert (Hconf : ∀ m, config_tree interfaces m = config_tree interfaces' m).
  { intros m. unfold config_tree.
    rewrite (multiplex_signals_filter config_changed Name.config_changed _
               (λ x H, H) interfaces).
    rewrite (multiplex_signals_filter config_changed Name.config_changed _
               (λ x H, H) interfaces').
    by rewrite (at_most_one_permutation _ _ _ Hperm Hc). }
  assert (Htx : ∀ m, tx_loop interfaces m = tx_loop interfaces' m).
  { intros m.
    change (tx_loop interfaces m)
      with (foldl (λ m y, if tx_valid y then drive_tx m y else m)
              m interfaces).
    change (tx_loop interfaces' m)
      with (foldl (λ m y, if tx_valid y then drive_tx m y else m)
              m interfaces').
    rewrite (foldl_filter tx_valid tx_valid drive_tx (λ x H, H) interfaces).
    rewrite (foldl_filter tx_valid tx_valid drive_tx (λ x H, H) interfaces').
    by rewrite (at_most_one_permutation _ _ _ Hperm Ht). }
  assert (Hhs : ∀ m, handshake_loop interfaces m
                     = handshake_loop interfaces' m).
  { intros m.
    change (handshake_loop interfaces m)
      with (foldl (λ m y, if handshake_requested y
                          then set_handshakes_out m (handshakes_out y)
                          else m) m interfaces).
    change (handshake_loop interfaces' m)
      with (foldl (λ m y, if handshake_requested y
                          then set_handshakes_out m (handshakes_out y)
                          else m) m interfaces').
    rewrite (foldl_filter handshake_requested handshake_requested _
               (λ x H, H) interfaces).
    rewrite (foldl_filter handshake_requested handshake_requested _
               (λ x H, H) interfaces').
    by rewrite (at_most_one_permutation _ _ _ Hperm Hh). }
  rewrite !elaborate_parts. by rewrite Haddr, Hconf, Htx, Hhs.
Qed.

Lemma registration_order_irrelevant_when_exclusive_witness :
  elaborate [sends_word 9 2; idle; requests_address 20; sends_stall 1] idle
  = elaborate [sends_stall 1; requests_address 20; sends_word 9 2; idle] idle.
Proof.
  apply registration_order_irrelevant_when_exclusive.
  - etrans.
    + apply (Permutation_app_comm [sends_word 9 2; idle]
               [requests_address 20; sends_stall 1]).
    + apply perm_swap.
  - unfold exclusive, at_most_one. simpl. lia.
Defined.

(** *** Where the shared values come from *)

Ltac tree_keeps proj :=
  rewrite (multiplex_signals_preserves proj)
    by (let n := fresh "n" in
        let Hn := fresh "Hn" in
        intros n ? ? Hn; destruct n; try done;
        repeat (apply elem_of_cons in Hn as [Hn|Hn]; [discriminate Hn|]);
        by apply elem_of_nil in Hn).

Lemma multiplex_signals_selects when multiplex interfaces m :
  _multiplex_signals when multiplex interfaces m = m ∨
  ∃ x, x ∈ interfaces ∧ condition_of x when = true ∧
       _multiplex_signals when multiplex interfaces m
       = foldl (λ m n, connect_signal n x m) m multiplex.
Proof.
  induction interfaces as [|a l IH]; [by left|]. simpl.
  destruct (condition_of a when) eqn:Ha.
  - right. exists a. split_and!; [apply list_elem_of_here | done..].
  - destruct IH as [IH | (x & Hx & Hc & IH)]; [by left|].
    right. exists x. split_and!; [by apply list_elem_of_further | done..].
Qed.

Lemma foldl_selects (asserts : _ → bool) (drive : _ → _ → _) interfaces m :
  foldl (λ m y, if asserts y then drive m y else m) m interfaces = m ∨
  ∃ x m', x ∈ interfaces ∧ asserts x = true ∧
          foldl (λ m y, if asserts y then drive m y else m) m interfaces
          = drive m' x.
Proof.
  induction interfaces as [|a l IH] using rev_ind; [by left|].
  rewrite foldl_app. simpl. destruct (asserts a) eqn:Ha.
  - right. eexists a, _. split_and!; [|done..].
    apply elem_of_app. right. apply list_elem_of_here.
  - destruct IH as [IH | (x & m' & Hx & Hc & IH)]; [by left|].
    right. exists x, m'. split_and!; [|done..].
    apply elem_of_app. by left.
Qed.

Lemma address_group_selects interfaces shared :
  (address_changed (elaborate interfaces shared) = false ∧
   new_address (elaborate interfaces shared) = 0) ∨
  ∃ x, x ∈ interfaces ∧ address_changed x = true ∧
       address_changed (elaborate interfaces shared) = true ∧
       new_address (elaborate interfaces shared) = new_address x.
Proof.
  rewrite elaborate_address_changed, elaborate_new_address.
  destruct (multiplex_signals_selects Name.address_changed
              [Name.address_changed; Name.new_address] interfaces
              (undriven shared)) as [-> | (x & Hx & Hc & ->)]; [by left|].
  right. exists x. simpl in *. by rewrite Hc.
Qed.

Lemma config_group_selects interfaces shared :
  (config_changed (elaborate interfaces shared) = false ∧
   new_config (elaborate interfaces shared) = 0) ∨
  ∃ x, x ∈ interfaces ∧ config_changed x = true ∧
       config_changed (elaborate interfaces shared) = true ∧
       new_config (elaborate interfaces shared) = new_config x.
Proof.
  rewrite elaborate_config_changed, elaborate_new_config.
  destruct (multiplex_signals_selects Name.config_changed
              [Name.config_changed; Name.new_config] interfaces
              (_multiplex_signals Name.address_changed
                 [Name.address_changed; Name.new_address] interfaces
                 (undriven shared))) as [-> | (x & Hx & Hc & ->)].
  - left. tree_keeps config_changed. by tree_keeps new_config.
  - right. exists x. simpl in *. by rewrite Hc.
Qed.

Lemma tx_group_selects interfaces shared :
  (tx (elaborate interfaces shared) = Stream_reset ∧
   tx_length (elaborate interfaces shared) = 0 ∧
   tx_sequence_number (elaborate interfaces shared) = 0) ∨
  ∃ x, x ∈ interfaces ∧ tx_valid x = true ∧
       tx (elaborate interfaces shared) = tx x ∧
       tx_length (elaborate interfaces shared) = tx_length x ∧
       tx_sequence_number (elaborate interfaces shared)
       = tx_sequence_number x.
Proof.
  rewrite !elaborate_tx_group by done.
  destruct (foldl_selects tx_valid drive_tx interfaces
              (after_trees interfaces shared))
    as [-> | (x & m' & Hx & Hc & ->)].
  - left. apply after_trees_tx.
  - right. by exists x.
Qed.

Lemma handshake_group_selects interfaces shared :
  handshakes_out (elaborate interfaces shared) = Handshakes_reset ∨
  ∃ x, x ∈ interfaces ∧ handshake_requested x = true ∧
       handshakes_out (elaborate interfaces shared) = handshakes_out x.
Proof.
  destruct (elaborate_handshakes_out interfaces shared) as (m & Hm & ->).
  destruct (foldl_selects handshake_requested
              (λ m y, set_handshakes_out m (handshakes_out y)) interfaces m)
    as [-> | (x & m' & Hx & Hc & ->)]; [by left|].
  right. by exists x.
Qed.

(** X9: the shared signals of each group are either all at reset or all
    taken from one registered handler that asserts the group's trigger.
    Values of different handlers are never mixed within a group: the
    shared tx stream, tx_length and tx_sequence_number come from the
    same handler, as do address_changed with new_address and
    config_changed with new_config, and handshakes_out as a whole. *)
Theorem shared_groups_come_from_one_handler interfaces shared :
  ((address_changed (elaborate interfaces shared) = false ∧
    new_address (elaborate interfaces shared) = 0) ∨
   ∃ x, x ∈ interfaces ∧ address_changed x = true ∧
        address_changed (elaborate interfaces shared) = true ∧
        new_address (elaborate interfaces shared) = new_address x) ∧
  ((config_changed (elaborate interfaces shared) = false ∧
    new_config (elaborate interfaces shared) = 0) ∨
   ∃ x, x ∈ interfaces ∧ config_changed x = true ∧
        config_changed (elaborate interfaces shared) = true ∧
        new_config (elaborate interfaces shared) = new_config x) ∧
  ((tx (elaborate interfaces shared) = Stream_reset ∧
    tx_length (elaborate interfaces shared) = 0 ∧
    tx_sequence_number (elaborate interfaces shared) = 0) ∨
   ∃ x, x ∈ interfaces ∧ tx_valid x = true ∧
        tx (elaborate interfaces shared) = tx x ∧
        tx_length (elaborate interfaces shared) = tx_length x ∧
        tx_sequence_number (elaborate interfaces shared)
        = tx_sequence_number x) ∧
  (handshakes_out (elaborate interfaces shared) = Handshakes_reset ∨
   ∃ x, x ∈ interfaces ∧ handshake_requested x = true ∧
        handshakes_out (elaborate interfaces shared) = handshakes_out x).
Proof.
  split_and!.
  - apply address_group_selects.
  - apply config_group_selects.
  - apply tx_group_selects.
  - apply handshake_group_selects.
Qed.

(** X10: when every registered interface keeps its values within the
    widths [SuperSpeedRequestHandlerInterface.__init__] declares
    (tx_length 11 bits, tx_sequence_number 5, new_address 7, new_config
    8), so does the shared interface, and a tx_length of at most
    MAX_PACKET_LENGTH on every handler gives one on the shared side. *)
Theorem shared_values_fit_declared_widths interfaces shared :
  Forall in_declared_widths interfaces →
  in_declared_widths (elaborate interfaces shared) ∧
  (Forall (λ x, tx_length x ≤ MAX_PACKET_LENGTH) interfaces →
   tx_length (elaborate interfaces shared) ≤ MAX_PACKET_LENGTH).
Proof.
  intros Hall. rewrite Forall_forall in Hall.
  assert (Ha : 0 ≤ new_address (elaborate interfaces shared) < 2 ^ 7).
  { destruct (address_group_selects interfaces shared)
      as [(_ & ->) | (x & Hx & _ & _ & ->)]; [lia|].
    by destruct (Hall x Hx) as (_ & _ & ? & _). }
  assert (Hc : 0 ≤ new_config (elaborate interfaces shared) < 2 ^ 8).
  { destruct (config_group_selects interfaces shared)
      as [(_ & ->) | (x & Hx & _ & _ & ->)]; [lia|].
    by destruct (Hall x Hx) as (_ & _ & _ & ?). }
  destruct (tx_group_selects interfaces shared)
    as [(_ & Hl & Hn) | (x & Hx & _ & _ & Hl & Hn)].
  - split; [|intros _; rewrite Hl; unfold MAX_PACKET_LENGTH; lia].
    unfold in_declared_widths. rewrite Hl, Hn. split_and!; (lia || done).
  - destruct (Hall x Hx) as (Hxl & Hxn & _ & _).
    split; [|intros Hmax; rewrite Forall_forall in Hmax;
             rewrite Hl; by apply Hmax].
    unfold in_declared_widths. rewrite Hl, Hn. split_and!; lia.
Qed.

Lemma shared_values_fit_declared_widths_witness :
  in_declared_widths
    (elaborate [sends_word 9 2; requests_address 20; sends_word 7 31] idle) ∧
  tx_length
    (elaborate [sends_word 9 2; requests_address 20; sends_word 7 31] idle)
  ≤ MAX_PACKET_LENGTH.
Proof.
  assert (Hw : Forall in_declared_widths
                 [sends_word 9 2; requests_address 20; sends_word 7 31]).
  { repeat constructor; simpl; lia. }
  destruct (shared_values_fit_declared_widths
              [sends_word 9 2; requests_address 20; sends_word 7 31] idle Hw)
    as [H1 H2].
  split; [exact H1|]. apply H2.
  repeat constructor; simpl; unfold MAX_PACKET_LENGTH; lia.
Defined.

(** *** Fan-out *)





(** *** Stall-only handlers behind the multiplexer *)




End MuxMoreFacts.
